(** * my_c_module: the factorial Kernel and its Python Adapter

    A shallow embedding of [src/my_c_module.c].

    - [c_factorial] is the Kernel, [long c_factorial(int n)].
    - [py_factorial] is the Adapter, the [METH_VARARGS] wrapper that parses
      the argument tuple, calls the Kernel and boxes its result.

    Data model (LP64, the ABI of the platforms CPython extension modules are
    built for on Linux and macOS): [int] is a 32-bit and [long] a 64-bit
    two's-complement integer.  Both are carried as [Z] and every arithmetic
    result is brought back into its type by [wrap_int] / [wrap_long], so an
    overflowing [i++] or [result *= i] wraps around modulo [2^32] / [2^64]. *)

From Stdlib Require Import ZArith Bool String List Lia.
Import ListNotations.
Open Scope Z_scope.

(** ** Machine integers *)

Module CInt.

Definition INT_BITS : Z := 32.
Definition LONG_BITS : Z := 64.

Definition INT_MIN : Z := - 2 ^ (INT_BITS - 1).
Definition INT_MAX : Z := 2 ^ (INT_BITS - 1) - 1.
Definition LONG_MIN : Z := - 2 ^ (LONG_BITS - 1).
Definition LONG_MAX : Z := 2 ^ (LONG_BITS - 1) - 1.

(** [wrap w x]: the value of the signed [w]-bit integer congruent to [x]
    modulo [2^w]. *)
Definition wrap (w : Z) (x : Z) : Z :=
  (x + 2 ^ (w - 1)) mod 2 ^ w - 2 ^ (w - 1).

Definition wrap_int (x : Z) : Z := wrap INT_BITS x.
Definition wrap_long (x : Z) : Z := wrap LONG_BITS x.

Definition in_int (x : Z) : Prop := INT_MIN <= x <= INT_MAX.
Definition in_long (x : Z) : Prop := LONG_MIN <= x <= LONG_MAX.

Definition in_intb (x : Z) : bool := (INT_MIN <=? x) && (x <=? INT_MAX).
Definition in_longb (x : Z) : bool := (LONG_MIN <=? x) && (x <=? LONG_MAX).

End CInt.
Import CInt.

(** ** The Kernel *)

(** The [for] loop of [c_factorial], entered with the current values of [i]
    and [result]:
<<
    for (int i = 2; i <= n; i++) { result *= i; }
    return result;
>>
    One unit of [fuel] is spent per evaluation of the loop test; [None] means
    that the test was still true when the fuel ran out.  [i] is an [int] and
    is promoted to [long] for the multiplication, whose result is a [long]. *)
Fixpoint for_loop (fuel : nat) (n i result : Z) : option Z :=
  match fuel with
  | O => None
  | S fuel' =>
      if i <=? n
      then for_loop fuel' n (wrap_int (i + 1)) (wrap_long (result * i))
      else Some result
  end.

(** [long c_factorial(int n)]: [long result = 1], then the loop from [i = 2]. *)
Definition c_factorial (fuel : nat) (n : Z) : option Z :=
  for_loop fuel n 2 1.

(** The call [c_factorial(n)] returns [v]. *)
Definition c_factorial_returns (n v : Z) : Prop :=
  exists fuel, c_factorial fuel n = Some v.

(** The call [c_factorial(n)] never returns. *)
Definition c_factorial_diverges (n : Z) : Prop :=
  forall fuel, c_factorial fuel n = None.

(** ** The mathematical factorial *)

Fixpoint factorial_upto (k : nat) : Z :=
  match k with
  | O => 1
  | S k' => Z.of_nat (S k') * factorial_upto k'
  end.

Definition exact_factorial (n : Z) : Z := factorial_upto (Z.to_nat n).

(** The values the specification lists for [0 <= n <= 12]. *)
Definition factorial_table : list Z :=
  [1; 1; 2; 6; 24; 120; 720; 5040; 40320; 362880; 3628800; 39916800;
   479001600].

(** The Kernel as the specification's data model describes it: one
    NativeInteger type for the parameter and the accumulator, so the
    product is accumulated at the width of the parameter ([int]). *)
Fixpoint for_loop_NativeInteger (fuel : nat) (n i result : Z) : option Z :=
  match fuel with
  | O => None
  | S fuel' =>
      if i <=? n
      then for_loop_NativeInteger fuel' n (wrap_int (i + 1))
             (wrap_int (result * i))
      else Some result
  end.

Definition factorial_NativeInteger (fuel : nat) (n : Z) : option Z :=
  for_loop_NativeInteger fuel n 2 1.

(** ** The host runtime *)

Module Host.

(** Modelled from the spec: HostValue, the host runtime's object, of which
    [src/] has only the opaque [PyObject*] handle.  The constructors are the
    host types the conversion protocol tells apart: the host-native integer
    (arbitrary precision), the boolean (a subtype of the integer), the
    float (by its bit pattern), the text value, the null object, and an
    instance of a user class together with the result of its integer-index
    method when it defines one. *)
Inductive PyObject : Type :=
| PyLong (v : Z)
| PyBool (b : bool)
| PyFloat (bits : Z)
| PyUnicode (s : string)
| PyNone
| PyInstance (index : option Z).

(** Modelled from the spec: the error the host's error channel holds after a
    failed parse.  The host reports a wrong argument count and a value of
    the wrong type as a type error, and a value out of range as an overflow
    error. *)
Inductive PyErr : Type :=
| TypeError_arity (given : nat)
| TypeError_not_integer
| OverflowError_range.

(** The specification's error taxonomy. *)
Inductive AdapterError : Type :=
| ArityError
| TypeConversionError.

Definition adapter_error (e : PyErr) : AdapterError :=
  match e with
  | TypeError_arity _ => ArityError
  | TypeError_not_integer => TypeConversionError
  | OverflowError_range => TypeConversionError
  end.

(** A reference to a host object: its position in the object store. *)
Definition ObjRef : Type := nat.

(** The state of the host runtime a call can observe or change: the error
    indicator (the out-of-band error slot), the store of objects built so
    far, and, as instrumentation, the arguments of the Kernel invocations
    made so far (most recent first). *)
Record HostState : Type := mkHost {
  error_indicator : option PyErr;
  objects : list PyObject;
  kernel_calls : list Z
}.

Definition PyErr_Set (e : PyErr) (h : HostState) : HostState :=
  mkHost (Some e) (objects h) (kernel_calls h).

Definition enter_kernel (n : Z) (h : HostState) : HostState :=
  mkHost (error_indicator h) (objects h) (n :: kernel_calls h).

(** Modelled from the spec: the host runtime's conversion protocol of
    section 4.2, step 1, here the conversion of an object to a C [long]
    ([PyLong_AsLong]), which is not under [src/].  The specification leaves
    the accepted types to the host; they are those of the runtime the source
    is written against: an integer converts when it fits, a boolean is an
    integer, and any other object converts through its integer-index method
    when it has one. *)
Definition PyLong_AsLong (o : PyObject) : PyErr + Z :=
  match o with
  | PyLong v => if in_longb v then inr v else inl OverflowError_range
  | PyBool b => inr (Z.b2z b)
  | PyInstance (Some v) =>
      if in_longb v then inr v else inl OverflowError_range
  | PyInstance None => inl TypeError_not_integer
  | PyFloat _ => inl TypeError_not_integer
  | PyUnicode _ => inl TypeError_not_integer
  | PyNone => inl TypeError_not_integer
  end.

(** Modelled from the spec: the format unit ["i"] of the host's argument
    parser, which is not under [src/]: convert to [long], then check the
    range of [int]. *)
Definition convert_i (o : PyObject) : PyErr + Z :=
  match PyLong_AsLong o with
  | inl e => inl e
  | inr ival =>
      if ival >? INT_MAX then inl OverflowError_range
      else if ival <? INT_MIN then inl OverflowError_range
      else inr ival
  end.

(** Modelled from the spec: [PyArg_ParseTuple(args, "i", &n)], which is not
    under [src/].  [Some n] stands for a true return with [n] stored;
    [None] for a false return, the error indicator being set. *)
Definition PyArg_ParseTuple_i (args : list PyObject) (h : HostState)
  : option Z * HostState :=
  match args with
  | [o] =>
      match convert_i o with
      | inl e => (None, PyErr_Set e h)
      | inr n => (Some n, h)
      end
  | _ => (None, PyErr_Set (TypeError_arity (length args)) h)
  end.

(** Modelled from the spec: the host's object-construction protocol of
    section 4.2, step 3 ([PyLong_FromLong]), which is not under [src/]: a
    new integer object is added to the store and its reference returned.
    Exhaustion of the host's memory is outside the model. *)
Definition PyLong_FromLong (v : Z) (h : HostState)
  : option ObjRef * HostState :=
  (Some (length (objects h)),
   mkHost (error_indicator h) (objects h ++ [PyLong v]) (kernel_calls h)).

(** The object a reference points to. *)
Definition deref (h : HostState) (r : ObjRef) : option PyObject :=
  nth_error (objects h) r.

(** What the specification calls convertible to NativeInteger: of an
    integer type (or with an integer index) and within the native range. *)
Definition convertible (o : PyObject) : Prop :=
  match o with
  | PyLong v => in_int v
  | PyBool _ => True
  | PyInstance (Some v) => in_int v
  | PyInstance None => False
  | PyFloat _ => False
  | PyUnicode _ => False
  | PyNone => False
  end.

(** The object is of the host-native integer type itself. *)
Definition is_host_int (o : PyObject) : bool :=
  match o with
  | PyLong _ => true
  | PyBool _ => false
  | PyFloat _ => false
  | PyUnicode _ => false
  | PyNone => false
  | PyInstance _ => false
  end.

End Host.
Import Host.

(** ** The Adapter *)

(** [static PyObject* py_factorial(PyObject* self, PyObject* args)]:
<<
    if (!PyArg_ParseTuple(args, "i", &n)) { return NULL; }
    long result = c_factorial(n);
    return PyLong_FromLong(result);
>>
    The outer [option] is the fuel of the Kernel's loop; the inner one is
    the returned pointer, [None] being [NULL].  [self] is not used.
    [enter_kernel] is the instrumentation of the call of the Kernel. *)
Definition py_factorial (fuel : nat) (args : list PyObject) (h : HostState)
  : option (option ObjRef * HostState) :=
  match PyArg_ParseTuple_i args h with
  | (None, h1) => Some (None, h1)
  | (Some n, h1) =>
      match c_factorial fuel n with
      | None => None
      | Some result => Some (PyLong_FromLong result (enter_kernel n h1))
      end
  end.

(** The call [factorial] on [args] made in state [h] returns an integer
    object of value [v]. *)
Definition py_factorial_returns_value
  (args : list PyObject) (h : HostState) (v : Z) : Prop :=
  exists fuel r h',
    py_factorial fuel args h = Some (Some r, h') /\
    deref h' r = Some (PyLong v).

(** The call [factorial] on [args] made in state [h] never returns. *)
Definition py_factorial_diverges (args : list PyObject) (h : HostState)
  : Prop :=
  forall fuel, py_factorial fuel args h = None.

(** * Properties *)

Example c_factorial_5 : c_factorial 5 5 = Some 120.
Proof. reflexivity. Qed.

Example c_factorial_21 : c_factorial 21 21 = Some (-4249290049419214848).
Proof. vm_compute. reflexivity. Qed.

(** ** Wrap-around arithmetic *)

Lemma pow2_half_pos (w : Z) : 0 < w -> 0 < 2 ^ (w - 1).
Proof. intros Hw. apply Z.pow_pos_nonneg; lia. Qed.

Lemma pow2_split (w : Z) : 0 < w -> 2 ^ w = 2 * 2 ^ (w - 1).
Proof.
  intros Hw.
  replace w with (Z.succ (w - 1)) at 1 by lia.
  apply Z.pow_succ_r; lia.
Qed.

Section Wrap.

Variable w : Z.
Hypothesis w_pos : 0 < w.

Lemma wrap_range (x : Z) : - 2 ^ (w - 1) <= wrap w x <= 2 ^ (w - 1) - 1.
Proof.
  unfold wrap.
  pose proof (pow2_half_pos w w_pos) as Hhalf.
  pose proof (pow2_split w w_pos) as Hsplit.
  assert (0 <= (x + 2 ^ (w - 1)) mod 2 ^ w < 2 ^ w)
    by (apply Z.mod_pos_bound; lia).
  lia.
Qed.

Lemma wrap_small (x : Z) :
  - 2 ^ (w - 1) <= x <= 2 ^ (w - 1) - 1 -> wrap w x = x.
Proof.
  intros Hx. unfold wrap.
  pose proof (pow2_split w w_pos) as Hsplit.
  rewrite Z.mod_small by lia. lia.
Qed.

Lemma wrap_congr (x y : Z) : x mod 2 ^ w = y mod 2 ^ w -> wrap w x = wrap w y.
Proof.
  intros Hxy. unfold wrap.
  rewrite <- (Zplus_mod_idemp_l x), <- (Zplus_mod_idemp_l y), Hxy.
  reflexivity.
Qed.

Lemma wrap_mod (x : Z) : wrap w x mod 2 ^ w = x mod 2 ^ w.
Proof.
  unfold wrap.
  rewrite Zminus_mod_idemp_l.
  f_equal. lia.
Qed.

Lemma wrap_mul_l (a b : Z) : wrap w (wrap w a * b) = wrap w (a * b).
Proof.
  apply wrap_congr.
  rewrite <- Zmult_mod_idemp_l, wrap_mod, Zmult_mod_idemp_l.
  reflexivity.
Qed.

End Wrap.

Lemma wrap_int_small (x : Z) : in_int x -> wrap_int x = x.
Proof. intros Hx. apply wrap_small; [reflexivity | exact Hx]. Qed.

Lemma wrap_int_in_int (x : Z) : in_int (wrap_int x).
Proof. apply wrap_range. reflexivity. Qed.

Lemma wrap_long_small (x : Z) : in_long x -> wrap_long x = x.
Proof. intros Hx. apply wrap_small; [reflexivity | exact Hx]. Qed.

Lemma wrap_long_in_long (x : Z) : in_long (wrap_long x).
Proof. apply wrap_range. reflexivity. Qed.

Lemma wrap_long_mul_l (a b : Z) :
  wrap_long (wrap_long a * b) = wrap_long (a * b).
Proof. apply wrap_mul_l. Qed.

Lemma INT_MAX_value : INT_MAX = 2147483647.
Proof. reflexivity. Qed.

Lemma INT_MIN_value : INT_MIN = -2147483648.
Proof. reflexivity. Qed.

Lemma LONG_MAX_value : LONG_MAX = 9223372036854775807.
Proof. reflexivity. Qed.

Lemma in_intb_spec (x : Z) : in_intb x = true <-> in_int x.
Proof. unfold in_intb, in_int. rewrite andb_true_iff, !Z.leb_le. tauto. Qed.

Lemma in_longb_spec (x : Z) : in_longb x = true <-> in_long x.
Proof. unfold in_longb, in_long. rewrite andb_true_iff, !Z.leb_le. tauto. Qed.

Lemma in_int_in_long (x : Z) : in_int x -> in_long x.
Proof.
  unfold in_int, in_long.
  assert (LONG_MIN <= INT_MIN) by (vm_compute; discriminate).
  assert (INT_MAX <= LONG_MAX) by (vm_compute; discriminate).
  lia.
Qed.

(** ** The mathematical factorial *)

Lemma factorial_upto_pos (k : nat) : 1 <= factorial_upto k.
Proof.
  induction k as [|k IH]; [reflexivity|].
  change (factorial_upto (S k)) with (Z.of_nat (S k) * factorial_upto k).
  nia.
Qed.

Lemma factorial_upto_mono (j k : nat) :
  (j <= k)%nat -> factorial_upto j <= factorial_upto k.
Proof.
  induction 1 as [|k Hle IH]; [lia|].
  change (factorial_upto (S k)) with (Z.of_nat (S k) * factorial_upto k).
  pose proof (factorial_upto_pos k). nia.
Qed.

Lemma exact_factorial_mono (a b : Z) :
  a <= b -> exact_factorial a <= exact_factorial b.
Proof.
  intros Hab. apply factorial_upto_mono. lia.
Qed.

Lemma exact_factorial_step (i : Z) :
  1 <= i -> exact_factorial i = exact_factorial (i - 1) * i.
Proof.
  intros Hi. unfold exact_factorial.
  replace (Z.to_nat i) with (S (Z.to_nat (i - 1))) by lia.
  change (factorial_upto (S (Z.to_nat (i - 1))))
    with (Z.of_nat (S (Z.to_nat (i - 1))) * factorial_upto (Z.to_nat (i - 1))).
  replace (Z.of_nat (S (Z.to_nat (i - 1)))) with i by lia.
  apply Z.mul_comm.
Qed.

Lemma exact_factorial_le_1 (n : Z) : n <= 1 -> exact_factorial n = 1.
Proof.
  intros Hn. unfold exact_factorial.
  destruct (Z.to_nat n) as [|[|k]] eqn:E; try reflexivity. lia.
Qed.

Lemma exact_factorial_20 : exact_factorial 20 = 2432902008176640000.
Proof. vm_compute. reflexivity. Qed.

Lemma exact_factorial_21 : exact_factorial 21 = 51090942171709440000.
Proof. vm_compute. reflexivity. Qed.

Lemma exact_factorial_fits_long (n : Z) :
  n <= 20 -> in_long (exact_factorial n).
Proof.
  intros Hn. unfold in_long.
  pose proof (exact_factorial_mono n 20 Hn) as Hle.
  rewrite exact_factorial_20 in Hle.
  pose proof (factorial_upto_pos (Z.to_nat n)) as Hpos.
  fold (exact_factorial n) in Hpos.
  rewrite LONG_MAX_value.
  assert (LONG_MIN <= 0) by (vm_compute; discriminate).
  lia.
Qed.

Lemma exact_factorial_exceeds_long (n : Z) :
  21 <= n -> LONG_MAX < exact_factorial n.
Proof.
  intros Hn.
  pose proof (exact_factorial_mono 21 n Hn) as Hle.
  rewrite exact_factorial_21 in Hle.
  rewrite LONG_MAX_value. lia.
Qed.

(** ** The Kernel's loop *)

Lemma for_loop_unfold (fuel : nat) (n i result : Z) :
  for_loop (S fuel) n i result =
  if i <=? n
  then for_loop fuel n (wrap_int (i + 1)) (wrap_long (result * i))
  else Some result.
Proof. reflexivity. Qed.

(** More fuel does not change a result already reached. *)
Lemma for_loop_more_fuel (fuel fuel' : nat) (n i result v : Z) :
  (fuel <= fuel')%nat ->
  for_loop fuel n i result = Some v ->
  for_loop fuel' n i result = Some v.
Proof.
  revert fuel' i result.
  induction fuel as [|fuel IH]; intros fuel' i result Hle Hrun.
  - discriminate Hrun.
  - destruct fuel' as [|fuel']; [lia|].
    rewrite for_loop_unfold in *.
    destruct (i <=? n).
    + apply IH; [lia | exact Hrun].
    + exact Hrun.
Qed.

Lemma for_loop_deterministic (f1 f2 : nat) (n i result v1 v2 : Z) :
  for_loop f1 n i result = Some v1 ->
  for_loop f2 n i result = Some v2 ->
  v1 = v2.
Proof.
  intros H1 H2.
  apply (for_loop_more_fuel f1 (Nat.max f1 f2)) in H1; [|lia].
  apply (for_loop_more_fuel f2 (Nat.max f1 f2)) in H2; [|lia].
  congruence.
Qed.

(** The loop leaves at once when its range is empty. *)
Lemma for_loop_exit (fuel : nat) (n i result : Z) :
  n < i -> for_loop (S fuel) n i result = Some result.
Proof.
  intros Hlt. rewrite for_loop_unfold.
  destruct (Z.leb_spec i n); [lia | reflexivity].
Qed.

(** Entered at [i] with [(i-1)!] accumulated, the loop returns [n!], both
    modulo [2^64], after [n + 1 - i] iterations: the counter stays below
    [INT_MAX] and never wraps. *)
Lemma for_loop_accumulates (k : nat) :
  forall n i : Z,
    n < INT_MAX -> 1 <= i <= n + 1 -> Z.of_nat k = n + 1 - i ->
    for_loop (S k) n i (wrap_long (exact_factorial (i - 1))) =
    Some (wrap_long (exact_factorial n)).
Proof.
  induction k as [|k IH]; intros n i Hn Hi Hk.
  - rewrite for_loop_exit by lia.
    do 2 f_equal. f_equal. lia.
  - rewrite for_loop_unfold.
    destruct (Z.leb_spec i n); [|lia].
    assert (Hint : in_int (i + 1)).
    { unfold in_int. rewrite INT_MIN_value. lia. }
    rewrite (wrap_int_small _ Hint), wrap_long_mul_l.
    rewrite <- (exact_factorial_step i) by lia.
    replace i with (i + 1 - 1) at 2 by lia.
    apply IH; lia.
Qed.

(** Below [INT_MAX] the Kernel returns the factorial modulo [2^64]. *)
Lemma c_factorial_wrapped (n : Z) :
  n < INT_MAX ->
  c_factorial (S (Z.to_nat (n - 1))) n = Some (wrap_long (exact_factorial n)).
Proof.
  intros Hn. unfold c_factorial.
  destruct (Z.le_gt_cases n 1) as [Hsmall | Hbig].
  - rewrite for_loop_exit by lia.
    rewrite (exact_factorial_le_1 n Hsmall). reflexivity.
  - change 1 with (wrap_long (exact_factorial (2 - 1))) at 2.
    apply for_loop_accumulates; lia.
Qed.

Lemma c_factorial_returns_wrapped (n : Z) :
  n < INT_MAX -> c_factorial_returns n (wrap_long (exact_factorial n)).
Proof.
  intros Hn. eexists. apply c_factorial_wrapped, Hn.
Qed.

Lemma c_factorial_returns_unique (n v1 v2 : Z) :
  c_factorial_returns n v1 -> c_factorial_returns n v2 -> v1 = v2.
Proof.
  intros [f1 H1] [f2 H2]. exact (for_loop_deterministic _ _ _ _ _ _ _ H1 H2).
Qed.

(** With [n = INT_MAX] the test [i <= n] holds for every [int] [i]: the
    counter wraps from [INT_MAX] to [INT_MIN] and the loop goes on. *)
Lemma for_loop_INT_MAX (fuel : nat) :
  forall i result : Z, in_int i -> for_loop fuel INT_MAX i result = None.
Proof.
  induction fuel as [|fuel IH]; intros i result Hi; [reflexivity|].
  rewrite for_loop_unfold.
  destruct (Z.leb_spec i INT_MAX) as [_ | Hgt].
  - apply IH, wrap_int_in_int.
  - unfold in_int in Hi. lia.
Qed.

Lemma c_factorial_INT_MAX (fuel : nat) : c_factorial fuel INT_MAX = None.
Proof.
  apply for_loop_INT_MAX. unfold in_int. rewrite INT_MIN_value, INT_MAX_value. lia.
Qed.

Lemma in_int_INT_MAX : in_int INT_MAX.
Proof. unfold in_int. rewrite INT_MIN_value, INT_MAX_value. lia. Qed.

Lemma in_int_INT_MIN : in_int INT_MIN.
Proof. unfold in_int. rewrite INT_MIN_value, INT_MAX_value. lia. Qed.

(** Where the factorial fits a [long] the Kernel returns it exactly. *)
Lemma c_factorial_exact (n : Z) :
  n <= 20 -> c_factorial_returns n (exact_factorial n).
Proof.
  intros Hn.
  rewrite <- (wrap_long_small (exact_factorial n))
    by (apply exact_factorial_fits_long, Hn).
  apply c_factorial_returns_wrapped. rewrite INT_MAX_value. lia.
Qed.

(** ... and returns nothing else. *)
Lemma c_factorial_exact_only (n v : Z) :
  n <= 20 -> c_factorial_returns n v -> v = exact_factorial n.
Proof.
  intros Hn Hv.
  exact (c_factorial_returns_unique n _ _ Hv (c_factorial_exact n Hn)).
Qed.

(** Below [INT_MAX] the Kernel is total. *)
Lemma c_factorial_total_below_INT_MAX (n : Z) :
  in_int n -> n < INT_MAX -> exists v, c_factorial_returns n v.
Proof.
  intros _ Hn. eexists. apply c_factorial_returns_wrapped, Hn.
Qed.

(** Between 21 and [INT_MAX - 1] the factorial does not fit a [long] and
    the Kernel returns its residue modulo [2^64], which differs from it. *)
Lemma c_factorial_wraps_silently (n : Z) :
  21 <= n < INT_MAX ->
  LONG_MAX < exact_factorial n /\
  c_factorial_returns n (wrap_long (exact_factorial n)) /\
  wrap_long (exact_factorial n) <> exact_factorial n.
Proof.
  intros [Hlo Hhi].
  pose proof (exact_factorial_exceeds_long n Hlo) as Hbig.
  repeat split; [exact Hbig | apply c_factorial_returns_wrapped, Hhi |].
  pose proof (wrap_long_in_long (exact_factorial n)) as [_ Hle].
  lia.
Qed.

(** ** Claims about the Kernel *)

(** C1. For every integer [n] with [0 <= n <= 12], [c_factorial(n)] returns
    the mathematically exact factorial of [n] and no other value, and that
    factorial is the entry of the specification's table 1, 1, 2, 6, 24,
    ..., 479001600 at position [n]. *)
Theorem c_factorial_exact_0_to_12 (n : Z) :
  0 <= n <= 12 ->
  c_factorial_returns n (exact_factorial n) /\
  (forall v, c_factorial_returns n v -> v = exact_factorial n) /\
  nth_error factorial_table (Z.to_nat n) = Some (exact_factorial n).
Proof.
  intros Hn. split; [|split].
  - apply c_factorial_exact. lia.
  - intros v Hv. apply c_factorial_exact_only; [lia | exact Hv].
  - assert (Hcases : exists k, (k <= 12)%nat /\ n = Z.of_nat k)
      by (exists (Z.to_nat n); lia).
    destruct Hcases as (k & Hk & ->).
    do 13 (destruct k as [|k]; [reflexivity|]). lia.
Qed.

Lemma c_factorial_exact_0_to_12_witness :
  0 <= 12 <= 12 /\
  (c_factorial_returns 12 (exact_factorial 12) /\
   (forall v, c_factorial_returns 12 v -> v = exact_factorial 12) /\
   nth_error factorial_table (Z.to_nat 12) = Some (exact_factorial 12)).
Proof.
  split; [lia | apply (c_factorial_exact_0_to_12 12); lia].
Defined.

(** C3. For every native integer [n] with [n <= 1], negative ones included,
    [c_factorial(n)] returns 1: the loop test fails the first time it is
    evaluated (one unit of fuel), so the body never runs. *)
Theorem c_factorial_empty_range (n : Z) :
  in_int n -> n <= 1 -> c_factorial 1 n = Some 1.
Proof.
  intros _ Hn. unfold c_factorial. apply for_loop_exit. lia.
Qed.

Lemma c_factorial_empty_range_witness :
  (in_int (-2147483648) /\ -2147483648 <= 1) /\
  c_factorial 1 (-2147483648) = Some 1 /\
  c_factorial 1 0 = Some 1 /\
  c_factorial 1 1 = Some 1.
Proof.
  assert (Hmin : in_int (-2147483648)) by exact in_int_INT_MIN.
  assert (H0 : in_int 0) by (unfold in_int; rewrite INT_MIN_value, INT_MAX_value; lia).
  assert (H1 : in_int 1) by (unfold in_int; rewrite INT_MIN_value, INT_MAX_value; lia).
  split; [split; [exact Hmin | lia] |].
  split; [apply (c_factorial_empty_range (-2147483648)); [exact Hmin | lia] |].
  split; [apply (c_factorial_empty_range 0); [exact H0 | lia] |].
  apply (c_factorial_empty_range 1); [exact H1 | lia].
Defined.

(** C9. The accumulator is a 64-bit [long] although the parameter is a
    32-bit [int]: for every [n] with [0 <= n <= 20], [c_factorial(n)]
    returns the exact factorial and no other value; that factorial fits a
    [long] (20! = 2432902008176640000), and from 13 on no longer fits an
    [int]. *)
Theorem c_factorial_exact_0_to_20 (n : Z) :
  0 <= n <= 20 ->
  c_factorial_returns n (exact_factorial n) /\
  (forall v, c_factorial_returns n v -> v = exact_factorial n) /\
  in_long (exact_factorial n) /\
  (13 <= n -> INT_MAX < exact_factorial n).
Proof.
  intros Hn. split; [apply c_factorial_exact; lia |].
  split; [intros v Hv; apply c_factorial_exact_only; [lia | exact Hv] |].
  split; [apply exact_factorial_fits_long; lia |].
  intros H13.
  pose proof (exact_factorial_mono 13 n H13) as Hle.
  change (exact_factorial 13) with 6227020800 in Hle.
  rewrite INT_MAX_value. lia.
Qed.

Lemma c_factorial_exact_0_to_20_witness :
  0 <= 20 <= 20 /\
  c_factorial_returns 20 2432902008176640000 /\
  (forall v, c_factorial_returns 20 v -> v = 2432902008176640000) /\
  in_long 2432902008176640000.
Proof.
  split; [lia|].
  rewrite <- exact_factorial_20.
  split; [|split]; apply (c_factorial_exact_0_to_20 20); lia.
Defined.

(** C6, as the specification states it: the parameter and the accumulator
    would share one type.  They do not: at [n = 13] the Kernel returns
    13! = 6227020800, which is no [int], whereas an accumulation at the
    width of the parameter gives 1932053504. *)
Lemma accumulator_is_not_parameter_type :
  in_int 13 /\
  c_factorial 13 13 = Some 6227020800 /\
  factorial_NativeInteger 13 13 = Some 1932053504 /\
  c_factorial 13 13 <> factorial_NativeInteger 13 13 /\
  in_intb 6227020800 = false.
Proof.
  split; [unfold in_int; rewrite INT_MIN_value, INT_MAX_value; lia |].
  split; [vm_compute; reflexivity |].
  split; [vm_compute; reflexivity |].
  split; [vm_compute; discriminate | vm_compute; reflexivity].
Qed.

(** C6, amended.  The parameter is a 32-bit signed [int] and the accumulator
    a 64-bit signed [long]: for every [int] [n] below [INT_MAX],
    [c_factorial(n)] returns the factorial of [n] reduced modulo [2^64] into
    the range of [long], and returns nothing else. *)
Theorem c_factorial_accumulates_in_long (n : Z) :
  in_int n -> n < INT_MAX ->
  c_factorial_returns n (wrap_long (exact_factorial n)) /\
  in_long (wrap_long (exact_factorial n)) /\
  (forall v, c_factorial_returns n v -> v = wrap_long (exact_factorial n)).
Proof.
  intros _ Hn.
  pose proof (c_factorial_returns_wrapped n Hn) as Hret.
  split; [exact Hret |].
  split; [apply wrap_long_in_long |].
  intros v Hv. exact (c_factorial_returns_unique n _ _ Hv Hret).
Qed.

Lemma c_factorial_accumulates_in_long_witness :
  (in_int 13 /\ 13 < INT_MAX) /\
  c_factorial_returns 13 (wrap_long (exact_factorial 13)) /\
  wrap_long (exact_factorial 13) = 6227020800.
Proof.
  assert (H13 : in_int 13)
    by (unfold in_int; rewrite INT_MIN_value, INT_MAX_value; lia).
  assert (Hlt : 13 < INT_MAX) by (rewrite INT_MAX_value; lia).
  split; [split; assumption |].
  split; [apply (c_factorial_accumulates_in_long 13 H13 Hlt) |].
  vm_compute; reflexivity.
Defined.

(** C7, at the input where it fails: [INT_MAX] is a native integer, and
    [c_factorial(INT_MAX)] returns no value whatever the fuel, because
    [i <= INT_MAX] holds for every [int] [i]; so the Kernel is not total
    over the native integers. *)
Theorem c_factorial_INT_MAX_never_returns :
  in_int INT_MAX /\
  c_factorial_diverges INT_MAX /\
  ~ (forall n, in_int n -> exists v, c_factorial_returns n v).
Proof.
  split; [exact in_int_INT_MAX |].
  split; [intros fuel; apply c_factorial_INT_MAX |].
  intros Htotal.
  destruct (Htotal INT_MAX in_int_INT_MAX) as (v & fuel & Hrun).
  rewrite c_factorial_INT_MAX in Hrun. discriminate Hrun.
Qed.

(** C5, at the input where it fails: the factorial of [INT_MAX] exceeds the
    range of [long], yet [c_factorial(INT_MAX)] yields no wrapped value: it
    does not return. *)
Theorem c_factorial_overflow_INT_MAX_never_returns :
  LONG_MAX < exact_factorial INT_MAX /\
  (forall fuel v, c_factorial fuel INT_MAX <> Some v).
Proof.
  split.
  - apply exact_factorial_exceeds_long. rewrite INT_MAX_value. lia.
  - intros fuel v. rewrite c_factorial_INT_MAX. discriminate.
Qed.

(** ** The host's conversion *)

Lemma convert_i_int_like (v : Z) :
  match
    (if in_longb v then inr v else inl OverflowError_range : PyErr + Z)
  with
  | inl e => inl e
  | inr ival =>
      if ival >? INT_MAX then inl OverflowError_range
      else if ival <? INT_MIN then inl OverflowError_range
      else inr ival
  end = if in_intb v then inr v else inl OverflowError_range.
Proof.
  destruct (in_intb v) eqn:Hint.
  - apply in_intb_spec in Hint.
    pose proof (in_int_in_long v Hint) as Hlong.
    apply in_longb_spec in Hlong. rewrite Hlong.
    unfold in_int in Hint. rewrite Z.gtb_ltb.
    destruct (Z.ltb_spec INT_MAX v); [lia|].
    destruct (Z.ltb_spec v INT_MIN); [lia|]. reflexivity.
  - destruct (in_longb v); [|reflexivity].
    rewrite Z.gtb_ltb.
    destruct (Z.ltb_spec INT_MAX v); [reflexivity|].
    destruct (Z.ltb_spec v INT_MIN); [reflexivity|].
    assert (in_intb v = true) by (apply in_intb_spec; unfold in_int; lia).
    congruence.
Qed.

Lemma convert_i_PyLong (v : Z) :
  convert_i (PyLong v) = if in_intb v then inr v else inl OverflowError_range.
Proof. apply convert_i_int_like. Qed.

Lemma convert_i_PyInstance (v : Z) :
  convert_i (PyInstance (Some v)) =
  if in_intb v then inr v else inl OverflowError_range.
Proof. apply convert_i_int_like. Qed.

Lemma convert_i_PyBool (b : bool) : convert_i (PyBool b) = inr (Z.b2z b).
Proof. destruct b; reflexivity. Qed.

(** The conversion succeeds exactly on the convertible objects, with a
    native integer; otherwise it reports a conversion error. *)
Lemma convert_i_spec (o : PyObject) :
  match convert_i o with
  | inl e => ~ convertible o /\ adapter_error e = TypeConversionError
  | inr n => convertible o /\ in_int n
  end.
Proof.
  destruct o as [v | b | bits | s | | [v|]];
    try (simpl; split; [intros [] | reflexivity]).
  - rewrite convert_i_PyLong. simpl.
    destruct (in_intb v) eqn:Hint.
    + apply in_intb_spec in Hint. split; exact Hint.
    + split; [|reflexivity]. intros Hc. apply in_intb_spec in Hc. congruence.
  - rewrite convert_i_PyBool. split; [exact I|].
    destruct b; unfold in_int; rewrite INT_MIN_value, INT_MAX_value; simpl; lia.
  - rewrite convert_i_PyInstance. simpl.
    destruct (in_intb v) eqn:Hint.
    + apply in_intb_spec in Hint. split; exact Hint.
    + split; [|reflexivity]. intros Hc. apply in_intb_spec in Hc. congruence.
Qed.

Lemma convert_i_not_convertible (o : PyObject) :
  ~ convertible o ->
  exists e, convert_i o = inl e /\ adapter_error e = TypeConversionError.
Proof.
  intros Hnc. pose proof (convert_i_spec o) as Hspec.
  destruct (convert_i o) as [e | n].
  - exists e. split; [reflexivity | apply Hspec].
  - destruct Hspec as [Hc _]. contradiction.
Qed.

Lemma convert_i_convertible (o : PyObject) :
  convertible o -> exists n, convert_i o = inr n /\ in_int n.
Proof.
  intros Hc. pose proof (convert_i_spec o) as Hspec.
  destruct (convert_i o) as [e | n].
  - destruct Hspec as [Hnc _]. contradiction.
  - exists n. split; [reflexivity | apply Hspec].
Qed.

(** ** The Adapter's two paths *)

Lemma deref_new_object (h : HostState) (v : Z) :
  deref (snd (PyLong_FromLong v h)) (length (objects h)) = Some (PyLong v).
Proof.
  unfold deref. simpl.
  rewrite nth_error_app2 by lia.
  rewrite Nat.sub_diag. reflexivity.
Qed.

Lemma deref_fresh (h : HostState) : deref h (length (objects h)) = None.
Proof. unfold deref. apply nth_error_None. lia. Qed.

(** A failed parse: [NULL] is returned at once, for any fuel. *)
Lemma py_factorial_parse_failed
  (fuel : nat) (args : list PyObject) (h h1 : HostState) :
  PyArg_ParseTuple_i args h = (None, h1) ->
  py_factorial fuel args h = Some (None, h1).
Proof. intros Hparse. unfold py_factorial. rewrite Hparse. reflexivity. Qed.

(** A successful parse followed by a Kernel call that returns. *)
Lemma py_factorial_parse_ok
  (fuel : nat) (args : list PyObject) (h h1 : HostState) (n result : Z) :
  PyArg_ParseTuple_i args h = (Some n, h1) ->
  c_factorial fuel n = Some result ->
  py_factorial fuel args h =
  Some (PyLong_FromLong result (enter_kernel n h1)).
Proof.
  intros Hparse Hrun. unfold py_factorial. rewrite Hparse, Hrun. reflexivity.
Qed.

(** A successful parse followed by a Kernel call that does not return. *)
Lemma py_factorial_parse_ok_diverges
  (args : list PyObject) (h h1 : HostState) (n : Z) :
  PyArg_ParseTuple_i args h = (Some n, h1) ->
  c_factorial_diverges n ->
  py_factorial_diverges args h.
Proof.
  intros Hparse Hdiv fuel. unfold py_factorial. rewrite Hparse, Hdiv.
  reflexivity.
Qed.

(** A successful parse leaves the host state as it was. *)
Lemma PyArg_ParseTuple_i_ok (args : list PyObject) (h h1 : HostState) (n : Z) :
  PyArg_ParseTuple_i args h = (Some n, h1) ->
  h1 = h /\ in_int n /\ exists o, args = [o] /\ convert_i o = inr n.
Proof.
  unfold PyArg_ParseTuple_i.
  destruct args as [|o [|o' rest]]; try discriminate.
  pose proof (convert_i_spec o) as Hspec.
  destruct (convert_i o) as [e | m] eqn:Hconv; [discriminate|].
  intros Heq. injection Heq as <- <-.
  split; [reflexivity|]. split; [apply Hspec|].
  exists o. split; [reflexivity | exact Hconv].
Qed.

(** Every successful parse of an argument below [INT_MAX] ends in the
    return of a new integer object holding the Kernel's result; the error
    indicator and the objects that existed are untouched. *)
Lemma py_factorial_success
  (args : list PyObject) (h h1 : HostState) (n : Z) :
  PyArg_ParseTuple_i args h = (Some n, h1) ->
  n < INT_MAX ->
  exists fuel r h' v,
    py_factorial fuel args h = Some (Some r, h') /\
    c_factorial_returns n v /\
    deref h r = None /\
    deref h' r = Some (PyLong v) /\
    objects h' = objects h ++ [PyLong v] /\
    error_indicator h' = error_indicator h /\
    kernel_calls h' = n :: kernel_calls h.
Proof.
  intros Hparse Hn.
  destruct (PyArg_ParseTuple_i_ok _ _ _ _ Hparse) as (-> & _ & _).
  pose proof (c_factorial_wrapped n Hn) as Hrun.
  exists (S (Z.to_nat (n - 1))), (length (objects h)).
  eexists. exists (wrap_long (exact_factorial n)).
  split; [apply (py_factorial_parse_ok _ _ _ _ _ _ Hparse Hrun) |].
  split; [eexists; exact Hrun |].
  split; [apply deref_fresh |].
  split; [apply (deref_new_object (enter_kernel n h)) |].
  repeat split.
Qed.

Lemma PyArg_ParseTuple_i_one (o : PyObject) (n : Z) (h : HostState) :
  convert_i o = inr n -> PyArg_ParseTuple_i [o] h = (Some n, h).
Proof. intros Hconv. unfold PyArg_ParseTuple_i. rewrite Hconv. reflexivity. Qed.

Lemma PyArg_ParseTuple_i_PyLong (n : Z) (h : HostState) :
  in_int n -> PyArg_ParseTuple_i [PyLong n] h = (Some n, h).
Proof.
  intros Hn. apply PyArg_ParseTuple_i_one.
  rewrite convert_i_PyLong.
  apply in_intb_spec in Hn. rewrite Hn. reflexivity.
Qed.

(** An argument the host converts to [n], on which the Kernel returns [v]
    within [fuel]: the Kernel is invoked on [n], no error is set, and a new
    object of value [v] is returned. *)
Lemma py_factorial_accepts
  (o : PyObject) (n : Z) (fuel : nat) (v : Z) (h : HostState) :
  convert_i o = inr n ->
  c_factorial fuel n = Some v ->
  exists r h',
    py_factorial fuel [o] h = Some (Some r, h') /\
    deref h' r = Some (PyLong v) /\
    kernel_calls h' = n :: kernel_calls h /\
    error_indicator h' = error_indicator h.
Proof.
  intros Hconv Hrun.
  exists (length (objects h)). eexists.
  split.
  - apply (py_factorial_parse_ok fuel [o] h h n v);
      [apply PyArg_ParseTuple_i_one, Hconv | exact Hrun].
  - split; [apply (deref_new_object (enter_kernel n h)) |].
    split; reflexivity.
Qed.

(** The value a returning call on [[PyLong n]] yields is the Kernel's. *)
Lemma py_factorial_value_is_kernel_result
  (n : Z) (h : HostState) (w : Z) :
  in_int n ->
  py_factorial_returns_value [PyLong n] h w ->
  c_factorial_returns n w.
Proof.
  intros Hn (fuel & r & h' & Hcall & Hderef).
  unfold py_factorial in Hcall.
  rewrite (PyArg_ParseTuple_i_PyLong n h Hn) in Hcall.
  destruct (c_factorial fuel n) as [result|] eqn:Hrun; [|discriminate].
  injection Hcall as <- <-.
  change (deref (snd (PyLong_FromLong result (enter_kernel n h)))
            (length (objects (enter_kernel n h))) = Some (PyLong w))
    in Hderef.
  rewrite deref_new_object in Hderef.
  injection Hderef as <-.
  exists fuel. exact Hrun.
Qed.

Lemma py_factorial_returns_wrapped (n : Z) (h : HostState) :
  in_int n -> n < INT_MAX ->
  py_factorial_returns_value [PyLong n] h (wrap_long (exact_factorial n)).
Proof.
  intros Hn Hlt.
  assert (Hconv : convert_i (PyLong n) = inr n).
  { rewrite convert_i_PyLong. apply in_intb_spec in Hn. rewrite Hn. reflexivity. }
  destruct (py_factorial_accepts _ _ _ _ h Hconv (c_factorial_wrapped n Hlt))
    as (r & h' & Hcall & Hderef & _).
  exists (S (Z.to_nat (n - 1))), r, h'. split; assumption.
Qed.

(** ** Claims about the Adapter *)

(** C2. When the argument tuple does not hold exactly one element, or its
    single element is not convertible to the native integer type (wrong
    type, or out of the native range), [py_factorial] returns [NULL] with
    the host's error indicator set, to an ArityError in the first case and
    a TypeConversionError in the second, and the Kernel is not invoked: no
    call is recorded, no object is built, and no fuel is needed. *)
Theorem py_factorial_rejects_bad_arguments
  (fuel : nat) (args : list PyObject) (h : HostState) :
  (length args <> 1%nat \/ exists o, args = [o] /\ ~ convertible o) ->
  exists e h',
    py_factorial fuel args h = Some (None, h') /\
    error_indicator h' = Some e /\
    (length args <> 1%nat -> adapter_error e = ArityError) /\
    (length args = 1%nat -> adapter_error e = TypeConversionError) /\
    kernel_calls h' = kernel_calls h /\
    objects h' = objects h.
Proof.
  intros [Harity | (o & -> & Hnc)].
  - exists (TypeError_arity (length args)), (PyErr_Set (TypeError_arity (length args)) h).
    split.
    + apply py_factorial_parse_failed.
      destruct args as [|o [|o' rest]]; try reflexivity.
      exfalso. apply Harity. reflexivity.
    + split; [reflexivity|].
      split; [intros _; reflexivity|].
      split; [intros Hone; contradiction|].
      split; reflexivity.
  - destruct (convert_i_not_convertible o Hnc) as (e & Hconv & Hkind).
    exists e, (PyErr_Set e h).
    split.
    + apply py_factorial_parse_failed.
      unfold PyArg_ParseTuple_i. rewrite Hconv. reflexivity.
    + split; [reflexivity|].
      split; [intros Hlen; exfalso; apply Hlen; reflexivity|].
      split; [intros _; exact Hkind|].
      split; reflexivity.
Qed.

Lemma py_factorial_rejects_bad_arguments_witness :
  (length [PyUnicode "five"%string] <> 1%nat \/
   exists o, [PyUnicode "five"%string] = [o] /\ ~ convertible o) /\
  exists e h',
    py_factorial 0 [PyUnicode "five"%string] (mkHost None [] []) = Some (None, h') /\
    error_indicator h' = Some e /\
    (length [PyUnicode "five"%string] <> 1%nat -> adapter_error e = ArityError) /\
    (length [PyUnicode "five"%string] = 1%nat ->
     adapter_error e = TypeConversionError) /\
    kernel_calls h' = kernel_calls (mkHost None [] []) /\
    objects h' = objects (mkHost None [] []).
Proof.
  assert (Hbad : length [PyUnicode "five"%string] <> 1%nat \/
                 exists o, [PyUnicode "five"%string] = [o] /\ ~ convertible o).
  { right. exists (PyUnicode "five"%string). split; [reflexivity | simpl; tauto]. }
  split; [exact Hbad |].
  apply (py_factorial_rejects_bad_arguments 0 [PyUnicode "five"%string]
           (mkHost None [] []) Hbad).
Defined.

(** C4, at the input where it fails: the tuple [(INT_MAX,)] parses to the
    native integer [INT_MAX] without touching the host state, and the call
    then never returns, so no object is handed back. *)
Theorem py_factorial_INT_MAX_never_returns (h : HostState) :
  PyArg_ParseTuple_i [PyLong INT_MAX] h = (Some INT_MAX, h) /\
  py_factorial_diverges [PyLong INT_MAX] h.
Proof.
  pose proof (PyArg_ParseTuple_i_PyLong INT_MAX h in_int_INT_MAX) as Hparse.
  split; [exact Hparse |].
  apply (py_factorial_parse_ok_diverges _ h h INT_MAX Hparse).
  intros fuel. apply c_factorial_INT_MAX.
Qed.

(** C8. Two calls of [factorial] with the same argument [n] return equal
    values, whatever the host states they are made in (in particular the
    second in the state the first has left): for every [int] [n] below
    [INT_MAX], which covers the valid range [0 <= n <= 12], there is one
    value that a call returns in either state, and no call returns another. *)
Theorem py_factorial_same_argument_same_value
  (n : Z) (h1 h2 : HostState) :
  in_int n -> n < INT_MAX ->
  exists v,
    py_factorial_returns_value [PyLong n] h1 v /\
    py_factorial_returns_value [PyLong n] h2 v /\
    (forall h w, py_factorial_returns_value [PyLong n] h w -> w = v).
Proof.
  intros Hn Hlt. exists (wrap_long (exact_factorial n)).
  split; [apply py_factorial_returns_wrapped; assumption |].
  split; [apply py_factorial_returns_wrapped; assumption |].
  intros h w Hw.
  apply (c_factorial_returns_unique n).
  - exact (py_factorial_value_is_kernel_result n h w Hn Hw).
  - apply c_factorial_returns_wrapped, Hlt.
Qed.

Lemma py_factorial_same_argument_same_value_witness :
  (in_int 5 /\ 5 < INT_MAX) /\
  exists v,
    py_factorial_returns_value [PyLong 5] (mkHost None [] []) v /\
    py_factorial_returns_value [PyLong 5] (mkHost None [PyLong 120] [5]) v /\
    (forall h w, py_factorial_returns_value [PyLong 5] h w -> w = v).
Proof.
  assert (H5 : in_int 5)
    by (unfold in_int; rewrite INT_MIN_value, INT_MAX_value; lia).
  assert (Hlt : 5 < INT_MAX) by (rewrite INT_MAX_value; lia).
  split; [split; assumption |].
  apply (py_factorial_same_argument_same_value 5 _ _ H5 Hlt).
Defined.

(** C10. Arguments that are not of the host-native integer type can pass
    the parse step: for every boolean, and for an object whose integer-index
    method returns 5, the Kernel is invoked on the converted value, the
    error indicator is left alone and an integer object is returned.
    Rejection is not tied to the type either: the host-native integer
    [INT_MAX + 1] is rejected, with the Kernel not invoked. *)
Theorem py_factorial_accepts_non_integers (h : HostState) :
  (forall b : bool,
     is_host_int (PyBool b) = false /\
     exists r h',
       py_factorial 1 [PyBool b] h = Some (Some r, h') /\
       deref h' r = Some (PyLong 1) /\
       kernel_calls h' = Z.b2z b :: kernel_calls h /\
       error_indicator h' = error_indicator h) /\
  (is_host_int (PyInstance (Some 5)) = false /\
   exists r h',
     py_factorial 5 [PyInstance (Some 5)] h = Some (Some r, h') /\
     deref h' r = Some (PyLong 120) /\
     kernel_calls h' = 5 :: kernel_calls h /\
     error_indicator h' = error_indicator h) /\
  (is_host_int (PyLong (INT_MAX + 1)) = true /\
   exists h',
     py_factorial 0 [PyLong (INT_MAX + 1)] h = Some (None, h') /\
     error_indicator h' = Some OverflowError_range /\
     kernel_calls h' = kernel_calls h).
Proof.
  split; [|split].
  - intros b. split; [reflexivity|].
    apply py_factorial_accepts; [apply convert_i_PyBool |].
    destruct b; reflexivity.
  - split; [reflexivity|].
    apply py_factorial_accepts; reflexivity.
  - split; [reflexivity|].
    exists (PyErr_Set OverflowError_range h).
    split; [reflexivity|]. split; reflexivity.
Qed.

(** * Further properties of the Kernel *)

Lemma factorial_upto_divide (j k : nat) :
  (j <= k)%nat -> (factorial_upto j | factorial_upto k).
Proof.
  induction 1 as [|k Hle IH]; [apply Z.divide_refl|].
  change (factorial_upto (S k)) with (Z.of_nat (S k) * factorial_upto k).
  apply Z.divide_mul_r, IH.
Qed.

Lemma wrap_long_multiple (x : Z) : (2 ^ LONG_BITS | x) -> wrap_long x = 0.
Proof.
  intros Hdiv.
  transitivity (wrap LONG_BITS 0); [|reflexivity].
  apply wrap_congr.
  rewrite Z.mod_0_l by (vm_compute; discriminate).
  apply Z.mod_divide; [vm_compute; discriminate | exact Hdiv].
Qed.

(** 66! is the first factorial that [2^64] divides. *)
Lemma wrap_long_factorial_from_66 (n : Z) :
  66 <= n -> wrap_long (exact_factorial n) = 0.
Proof.
  intros Hn. apply wrap_long_multiple.
  apply (Z.divide_trans _ (factorial_upto 66)).
  - apply Z.mod_divide; [vm_compute; discriminate | vm_compute; reflexivity].
  - apply factorial_upto_divide. lia.
Qed.

Lemma wrap_long_factorial_below_66 (n : Z) :
  n < 66 -> wrap_long (exact_factorial n) <> 0.
Proof.
  intros Hn.
  assert (Hall : forallb (fun k => negb (wrap_long (factorial_upto k) =? 0))
                   (seq 0 66) = true) by (vm_compute; reflexivity).
  rewrite forallb_forall in Hall.
  assert (Hin : In (Z.to_nat n) (seq 0 66)) by (apply in_seq; lia).
  specialize (Hall _ Hin).
  apply negb_true_iff, Z.eqb_neq in Hall. exact Hall.
Qed.

(** Short of [n + 2 - i] loop tests the loop entered at [i] has not left. *)
Lemma for_loop_needs_fuel (k : nat) :
  forall n i result : Z,
    n < INT_MAX -> 1 <= i <= n + 1 -> Z.of_nat k < n + 2 - i ->
    for_loop k n i result = None.
Proof.
  induction k as [|k IH]; intros n i result Hn Hi Hk; [reflexivity|].
  rewrite for_loop_unfold.
  destruct (Z.leb_spec i n); [|lia].
  assert (Hint : in_int (i + 1)).
  { unfold in_int. rewrite INT_MIN_value. lia. }
  rewrite (wrap_int_small _ Hint).
  apply IH; lia.
Qed.

(** X1. The results obey the factorial recurrence modulo [2^64]: when
    [c_factorial(n - 1)] returns [p], with [2 <= n < INT_MAX], then
    [c_factorial(n)] returns the [long] product [p * n]. *)
Theorem c_factorial_recurrence (n p : Z) :
  2 <= n -> n < INT_MAX ->
  c_factorial_returns (n - 1) p ->
  c_factorial_returns n (wrap_long (p * n)).
Proof.
  intros Hlo Hhi Hprev.
  assert (Hp : p = wrap_long (exact_factorial (n - 1))).
  { apply (c_factorial_returns_unique (n - 1)); [exact Hprev |].
    apply c_factorial_returns_wrapped. lia. }
  subst p.
  rewrite wrap_long_mul_l, <- exact_factorial_step by lia.
  apply c_factorial_returns_wrapped, Hhi.
Qed.

Lemma c_factorial_recurrence_witness :
  (2 <= 22 /\ 22 < INT_MAX /\
   c_factorial_returns (22 - 1) (-4249290049419214848)) /\
  c_factorial_returns 22 (wrap_long (-4249290049419214848 * 22)).
Proof.
  assert (Hhi : 22 < INT_MAX) by (rewrite INT_MAX_value; lia).
  assert (Hprev : c_factorial_returns (22 - 1) (-4249290049419214848))
    by (exists 21%nat; vm_compute; reflexivity).
  split; [split; [lia | split; assumption] |].
  apply (c_factorial_recurrence 22 _); [lia | exact Hhi | exact Hprev].
Defined.

(** X2. Among the native integers below [INT_MAX] the Kernel's result is the
    exact factorial precisely for [n <= 20] (taking the factorial of a
    negative number to be the empty product 1): from 21 on it is not. *)
Theorem c_factorial_exact_iff (n : Z) :
  in_int n -> n < INT_MAX ->
  (c_factorial_returns n (exact_factorial n) <-> n <= 20).
Proof.
  intros _ Hhi. split.
  - intros Hexact.
    destruct (Z.le_gt_cases n 20) as [Hle | Hgt]; [exact Hle | exfalso].
    destruct (c_factorial_wraps_silently n) as (_ & Hwrap & Hne); [lia|].
    apply Hne. exact (c_factorial_returns_unique n _ _ Hwrap Hexact).
  - apply c_factorial_exact.
Qed.

Lemma c_factorial_exact_iff_witness :
  (in_int 21 /\ 21 < INT_MAX) /\
  (c_factorial_returns 21 (exact_factorial 21) <-> 21 <= 20).
Proof.
  assert (Hin : in_int 21)
    by (unfold in_int; rewrite INT_MIN_value, INT_MAX_value; lia).
  assert (Hhi : 21 < INT_MAX) by (rewrite INT_MAX_value; lia).
  split; [split; assumption |].
  apply (c_factorial_exact_iff 21 Hin Hhi).
Defined.

(** X3. Among the native integers below [INT_MAX] the Kernel returns 0
    precisely for [n >= 66]: [2^64] divides [n!] from 66! on and no
    earlier. *)
Theorem c_factorial_zero_iff (n : Z) :
  in_int n -> n < INT_MAX ->
  (c_factorial_returns n 0 <-> 66 <= n).
Proof.
  intros _ Hhi.
  pose proof (c_factorial_returns_wrapped n Hhi) as Hret.
  split.
  - intros Hzero.
    destruct (Z.le_gt_cases 66 n) as [Hle | Hgt]; [exact Hle | exfalso].
    apply (wrap_long_factorial_below_66 n); [lia|].
    exact (c_factorial_returns_unique n _ _ Hret Hzero).
  - intros Hle. rewrite (wrap_long_factorial_from_66 n Hle) in Hret.
    exact Hret.
Qed.

Lemma c_factorial_zero_iff_witness :
  (in_int 66 /\ 66 < INT_MAX) /\ (c_factorial_returns 66 0 <-> 66 <= 66).
Proof.
  assert (Hin : in_int 66)
    by (unfold in_int; rewrite INT_MIN_value, INT_MAX_value; lia).
  assert (Hhi : 66 < INT_MAX) by (rewrite INT_MAX_value; lia).
  split; [split; assumption |].
  apply (c_factorial_zero_iff 66 Hin Hhi).
Defined.

(** X4. The cost of a call: for a native integer [n] below [INT_MAX] the
    Kernel returns after exactly [max n 1] evaluations of the loop test
    (that is [n - 1] multiplications when [n >= 2]): it has a result with
    that much fuel and with none less. *)
Theorem c_factorial_loop_tests (fuel : nat) (n : Z) :
  in_int n -> n < INT_MAX ->
  (c_factorial fuel n <> None <-> Z.max n 1 <= Z.of_nat fuel).
Proof.
  intros _ Hhi. split.
  - intros Hsome.
    destruct (Z.le_gt_cases (Z.max n 1) (Z.of_nat fuel)) as [Hle | Hgt];
      [exact Hle | exfalso; apply Hsome].
    unfold c_factorial.
    destruct (Z.le_gt_cases n 1) as [Hsmall | Hbig].
    + destruct fuel as [|fuel]; [reflexivity | lia].
    + apply for_loop_needs_fuel; lia.
  - intros Hle.
    pose proof (c_factorial_wrapped n Hhi) as Hrun.
    unfold c_factorial in *.
    assert (Hfuel : (S (Z.to_nat (n - 1)) <= fuel)%nat) by lia.
    rewrite (for_loop_more_fuel _ fuel _ _ _ _ Hfuel Hrun).
    discriminate.
Qed.

Lemma c_factorial_loop_tests_witness :
  (in_int 5 /\ 5 < INT_MAX) /\
  (c_factorial 4 5 <> None <-> Z.max 5 1 <= Z.of_nat 4) /\
  (c_factorial 5 5 <> None <-> Z.max 5 1 <= Z.of_nat 5).
Proof.
  assert (Hin : in_int 5)
    by (unfold in_int; rewrite INT_MIN_value, INT_MAX_value; lia).
  assert (Hhi : 5 < INT_MAX) by (rewrite INT_MAX_value; lia).
  split; [split; assumption |].
  split; [apply (c_factorial_loop_tests 4 5 Hin Hhi) |
          apply (c_factorial_loop_tests 5 5 Hin Hhi)].
Defined.

(** * Further properties of the Adapter *)

(** A failed parse sets the error indicator and nothing else, and happens
    only on a tuple that is not a single convertible element. *)
Lemma PyArg_ParseTuple_i_failed (args : list PyObject) (h h1 : HostState) :
  PyArg_ParseTuple_i args h = (None, h1) ->
  (exists e, h1 = PyErr_Set e h) /\
  (length args <> 1%nat \/ exists o, args = [o] /\ ~ convertible o).
Proof.
  unfold PyArg_ParseTuple_i.
  destruct args as [|o [|o' rest]].
  - intros Heq. injection Heq as <-.
    split; [eexists; reflexivity | left; discriminate].
  - pose proof (convert_i_spec o) as Hspec.
    destruct (convert_i o) as [e | n]; [|discriminate].
    intros Heq. injection Heq as <-.
    split; [eexists; reflexivity |].
    right. exists o. split; [reflexivity | apply Hspec].
  - intros Heq. injection Heq as <-.
    split; [eexists; reflexivity | left; discriminate].
Qed.

Lemma PyArg_ParseTuple_i_bad (args : list PyObject) (h : HostState) :
  (length args <> 1%nat \/ exists o, args = [o] /\ ~ convertible o) ->
  exists e, PyArg_ParseTuple_i args h = (None, PyErr_Set e h).
Proof.
  intros [Harity | (o & -> & Hnc)].
  - exists (TypeError_arity (length args)).
    destruct args as [|o [|o' rest]]; try reflexivity.
    exfalso. apply Harity. reflexivity.
  - destruct (convert_i_not_convertible o Hnc) as (e & Hconv & _).
    exists e. unfold PyArg_ParseTuple_i. rewrite Hconv. reflexivity.
Qed.

(** What a returning call has done, by the path it took. *)
Lemma py_factorial_returned
  (fuel : nat) (args : list PyObject) (h : HostState)
  (r : option ObjRef) (h' : HostState) :
  py_factorial fuel args h = Some (r, h') ->
  (r = None /\ PyArg_ParseTuple_i args h = (None, h')) \/
  (exists n v,
     PyArg_ParseTuple_i args h = (Some n, h) /\
     c_factorial fuel n = Some v /\
     r = Some (length (objects h)) /\
     h' = mkHost (error_indicator h) (objects h ++ [PyLong v])
            (n :: kernel_calls h)).
Proof.
  unfold py_factorial.
  destruct (PyArg_ParseTuple_i args h) as [[n|] h1] eqn:Hparse.
  - destruct (PyArg_ParseTuple_i_ok _ _ _ _ Hparse) as (-> & _ & _).
    destruct (c_factorial fuel n) as [v|] eqn:Hrun; [|discriminate].
    intros Heq. injection Heq as <- <-.
    right. exists n, v. repeat split; assumption.
  - intros Heq. injection Heq as <- <-.
    left. split; reflexivity.
Qed.

(** X5. [py_factorial] returns [NULL] precisely when the argument tuple is
    not a single element convertible to the native integer type: the path
    through the Kernel never yields [NULL]. *)
Theorem py_factorial_NULL_iff (args : list PyObject) (h : HostState) :
  (exists fuel h', py_factorial fuel args h = Some (None, h')) <->
  (length args <> 1%nat \/ exists o, args = [o] /\ ~ convertible o).
Proof.
  split.
  - intros (fuel & h' & Hcall).
    destruct (py_factorial_returned _ _ _ _ _ Hcall)
      as [[_ Hparse] | (n & v & _ & _ & Hr & _)]; [|discriminate Hr].
    apply (PyArg_ParseTuple_i_failed _ _ _ Hparse).
  - intros Hbad.
    destruct (PyArg_ParseTuple_i_bad args h Hbad) as (e & Hparse).
    exists 0%nat, (PyErr_Set e h).
    apply py_factorial_parse_failed, Hparse.
Qed.

(** X6. A call of [py_factorial] fails to return precisely when its
    argument tuple is a single element that converts to [INT_MAX]; on every
    other tuple it returns. *)
Theorem py_factorial_diverges_iff (args : list PyObject) (h : HostState) :
  py_factorial_diverges args h <->
  exists o, args = [o] /\ convert_i o = inr INT_MAX.
Proof.
  split.
  - intros Hdiv.
    destruct (PyArg_ParseTuple_i args h) as [[n|] h1] eqn:Hparse.
    + destruct (PyArg_ParseTuple_i_ok _ _ _ _ Hparse)
        as (_ & Hint & o & -> & Hconv).
      exists o. split; [reflexivity|].
      destruct (Z.eq_dec n INT_MAX) as [-> | Hne]; [exact Hconv | exfalso].
      assert (Hlt : n < INT_MAX) by (unfold in_int in Hint; lia).
      destruct (py_factorial_success _ _ _ _ Hparse Hlt)
        as (fuel & r & h' & v & Hcall & _).
      rewrite (Hdiv fuel) in Hcall. discriminate Hcall.
    + exfalso.
      pose proof (py_factorial_parse_failed 0 _ _ _ Hparse) as Hcall.
      rewrite (Hdiv 0%nat) in Hcall. discriminate Hcall.
  - intros (o & -> & Hconv).
    apply (py_factorial_parse_ok_diverges _ h h INT_MAX).
    + apply PyArg_ParseTuple_i_one, Hconv.
    + intros fuel. apply c_factorial_INT_MAX.
Qed.

(** X7. The host's error protocol: called with the error indicator clear,
    [py_factorial] returns [NULL] if and only if it leaves the error
    indicator set. *)
Theorem py_factorial_error_protocol
  (fuel : nat) (args : list PyObject) (h : HostState)
  (r : option ObjRef) (h' : HostState) :
  error_indicator h = None ->
  py_factorial fuel args h = Some (r, h') ->
  (r = None <-> error_indicator h' <> None).
Proof.
  intros Hclear Hcall.
  destruct (py_factorial_returned _ _ _ _ _ Hcall)
    as [[-> Hparse] | (n & v & _ & _ & -> & ->)].
  - destruct (PyArg_ParseTuple_i_failed _ _ _ Hparse) as [[e ->] _].
    split; [intros _; discriminate | reflexivity].
  - simpl. rewrite Hclear.
    split; [discriminate | intros Hne; exfalso; apply Hne; reflexivity].
Qed.

Lemma py_factorial_error_protocol_witness :
  (error_indicator (mkHost None [PyNone] []) = None /\
   py_factorial 3 [PyLong 3; PyLong 4] (mkHost None [PyNone] []) =
   Some (None, mkHost (Some (TypeError_arity 2)) [PyNone] [])) /\
  (@None ObjRef = None <->
   error_indicator (mkHost (Some (TypeError_arity 2)) [PyNone] []) <> None).
Proof.
  split; [split; reflexivity |].
  apply (py_factorial_error_protocol 3 [PyLong 3; PyLong 4]
           (mkHost None [PyNone] [])); reflexivity.
Defined.

(** The value of a returning call on an object the host converts to [n] is
    a value the Kernel returns on [n]. *)
Lemma py_factorial_returned_value
  (o : PyObject) (n : Z) (h : HostState) (v : Z) :
  convert_i o = inr n ->
  py_factorial_returns_value [o] h v -> c_factorial_returns n v.
Proof.
  intros Hconv (fuel & r & h' & Hcall & Hderef).
  pose proof (PyArg_ParseTuple_i_one o n h Hconv) as Hparse.
  unfold py_factorial in Hcall. rewrite Hparse in Hcall.
  destruct (c_factorial fuel n) as [w|] eqn:Hrun; [|discriminate].
  injection Hcall as <- <-.
  change (deref (snd (PyLong_FromLong w (enter_kernel n h)))
            (length (objects (enter_kernel n h))) = Some (PyLong v))
    in Hderef.
  rewrite deref_new_object in Hderef. injection Hderef as <-.
  exists fuel. exact Hrun.
Qed.

(** X8. End to end on the exact range: whatever object the host converts to
    a native integer [n <= 20] (an integer, a boolean, an object with an
    integer index), [py_factorial] returns an integer object whose value is
    the exact factorial of [n] (1 for [n <= 1]), in any host state, and no
    call on that object returns an integer object of another value. *)
Theorem py_factorial_exact_end_to_end
  (o : PyObject) (n : Z) (h : HostState) :
  convert_i o = inr n -> n <= 20 ->
  py_factorial_returns_value [o] h (exact_factorial n) /\
  (forall h0 w,
     py_factorial_returns_value [o] h0 w -> w = exact_factorial n).
Proof.
  intros Hconv Hn. split.
  - destruct (c_factorial_exact n Hn) as [fuel Hrun].
    destruct (py_factorial_accepts o n fuel _ h Hconv Hrun)
      as (r & h' & Hcall & Hderef & _).
    exists fuel, r, h'. split; assumption.
  - intros h0 w Hw.
    apply (c_factorial_exact_only n w Hn).
    exact (py_factorial_returned_value o n h0 w Hconv Hw).
Qed.

Lemma py_factorial_exact_end_to_end_witness :
  (convert_i (PyInstance (Some 20)) = inr 20 /\ 20 <= 20) /\
  py_factorial_returns_value [PyInstance (Some 20)]
    (mkHost None [] []) (exact_factorial 20) /\
  (forall h0 w,
     py_factorial_returns_value [PyInstance (Some 20)] h0 w ->
     w = exact_factorial 20).
Proof.
  split; [split; [reflexivity | lia] |].
  apply (py_factorial_exact_end_to_end (PyInstance (Some 20)) 20);
    [reflexivity | lia].
Defined.

(** X10. The Adapter passes the Kernel's result through unchanged: for an
    object the host converts to the native integer [n], a call returns an
    integer object of value [v] if and only if [c_factorial(n)] returns
    [v]. *)
Theorem py_factorial_value_iff_kernel
  (o : PyObject) (n : Z) (h : HostState) (v : Z) :
  convert_i o = inr n ->
  (py_factorial_returns_value [o] h v <-> c_factorial_returns n v).
Proof.
  intros Hconv.
  pose proof (PyArg_ParseTuple_i_one o n h Hconv) as Hparse.
  split.
  - intros (fuel & r & h' & Hcall & Hderef).
    destruct (py_factorial_returned _ _ _ _ _ Hcall)
      as [[Hr _] | (m & w & Hparse' & Hrun & Hr & ->)]; [discriminate Hr |].
    rewrite Hparse in Hparse'. injection Hparse' as <-.
    injection Hr as ->.
    change (deref (snd (PyLong_FromLong w (enter_kernel n h)))
              (length (objects (enter_kernel n h))) = Some (PyLong v))
      in Hderef.
    rewrite deref_new_object in Hderef. injection Hderef as <-.
    exists fuel. exact Hrun.
  - intros [fuel Hrun].
    destruct (py_factorial_accepts o n fuel v h Hconv Hrun)
      as (r & h' & Hcall & Hderef & _).
    exists fuel, r, h'. split; assumption.
Qed.

Lemma py_factorial_value_iff_kernel_witness :
  convert_i (PyBool true) = inr 1 /\
  (py_factorial_returns_value [PyBool true] (mkHost None [] []) 1 <->
   c_factorial_returns 1 1).
Proof.
  split; [reflexivity |].
  apply (py_factorial_value_iff_kernel (PyBool true) 1); reflexivity.
Defined.
